(** * Element trees of the NavBar logo and of the selected-chat page

    The two view components of the front end,

      - [frontend/lib/components/NavBar/components/Logo.tsx]
      - [frontend/app/chat/[chatId]/page.tsx]

    are embedded as functions that return the element tree their JSX
    expression denotes.  The first part of the file is a small library
    about such trees (attributes, document order, paths, enclosing
    scopes); the second part transcribes the two components; the last
    part states and proves their composition contract. *)

From Stdlib Require Import String Ascii List ZArith Bool Arith Lia.
From Stdlib Require Import Sorting.Permutation.
Import ListNotations.
Local Open Scope string_scope.
Local Open Scope list_scope.

(** ** JSX element trees *)

Module Jsx.

(** An attribute value: the sources only use string literals
    ([alt="Max Smart"], [href={"/"}]) and integer literals
    ([width={48}]). *)
Inductive JsValue : Type :=
| VStr (s : string)
| VNum (n : Z).

(** What stands in tag position: a lower-case host tag ([main], [h1])
    or an imported component ([Link], [ChatProvider]). *)
Inductive ElementType : Type :=
| Host (tag : string)
| Comp (name : string).

Definition Attrs : Type := list (string * JsValue).

(** A JSX expression: an element with its attributes and children, or a
    run of literal text between tags. *)
#[local] Unset Elimination Schemes.
Inductive Node : Type :=
| Element (type : ElementType) (attrs : Attrs) (kids : list Node)
| Text (s : string).
#[local] Set Elimination Schemes.

(** Induction over a tree, with the hypothesis available for every
    child of an element. *)
Section NodeInduction.
Variable P : Node -> Prop.
Hypothesis P_text : forall s, P (Text s).
Hypothesis P_element :
  forall ty attrs kids, Forall P kids -> P (Element ty attrs kids).

Fixpoint Node_ind (n : Node) : P n :=
  match n with
  | Text s => P_text s
  | Element ty attrs kids =>
      P_element ty attrs kids
        ((fix all (l : list Node) : Forall P l :=
            match l with
            | [] => Forall_nil P
            | c :: l' => Forall_cons c (Node_ind c) (all l')
            end) kids)
  end.
End NodeInduction.

Definition jsx (type : ElementType) (attrs : Attrs) (kids : list Node) : Node :=
  Element type attrs kids.

Definition children (n : Node) : list Node :=
  match n with
  | Element _ _ kids => kids
  | Text _ => []
  end.

Definition attributes (n : Node) : Attrs :=
  match n with
  | Element _ attrs _ => attrs
  | Text _ => []
  end.

Definition type_of (n : Node) : option ElementType :=
  match n with
  | Element ty _ _ => Some ty
  | Text _ => None
  end.

Definition ElementType_eqb (a b : ElementType) : bool :=
  match a, b with
  | Host s, Host t => String.eqb s t
  | Comp s, Comp t => String.eqb s t
  | _, _ => false
  end.

Definition has_type (ty : ElementType) (n : Node) : bool :=
  match type_of n with
  | Some ty' => ElementType_eqb ty ty'
  | None => false
  end.

Definition is_text (n : Node) : bool :=
  match n with
  | Text _ => true
  | Element _ _ _ => false
  end.

(** Attribute lookup.  When a name is written twice in a JSX tag the
    later one wins, as in an object literal. *)
Fixpoint lookup_attr (k : string) (attrs : Attrs) : option JsValue :=
  match attrs with
  | [] => None
  | (k', v) :: rest =>
      match lookup_attr k rest with
      | Some v' => Some v'
      | None => if String.eqb k k' then Some v else None
      end
  end.

Definition attr (k : string) (n : Node) : option JsValue :=
  lookup_attr k (attributes n).

(** *** Class lists

    [className] holds a blank-separated list of class names. *)

Definition is_blank (c : ascii) : bool :=
  match nat_of_ascii c with
  | 32 | 9 | 10 | 12 | 13 => true
  | _ => false
  end.

Definition flush (word : string) : list string :=
  match word with
  | EmptyString => []
  | _ => [word]
  end.

Fixpoint split_blank (word s : string) : list string :=
  match s with
  | EmptyString => flush word
  | String c s' =>
      if is_blank c
      then flush word ++ split_blank EmptyString s'
      else split_blank (word ++ String c EmptyString) s'
  end.

Definition class_list (n : Node) : list string :=
  match attr "className" n with
  | Some (VStr s) => split_blank EmptyString s
  | _ => []
  end.

Definition has_class (c : string) (n : Node) : bool :=
  existsb (String.eqb c) (class_list n).

(** *** Paths and document order *)

(** A path names a node by the child indices walked from the root. *)
Definition Path : Type := list nat.

Fixpoint subtree_at (p : Path) (n : Node) : option Node :=
  match p with
  | [] => Some n
  | i :: p' =>
      match nth_error (children n) i with
      | Some c => subtree_at p' c
      | None => None
      end
  end.

Definition under (i : nat) (pn : Path * Node) : Path * Node :=
  (i :: fst pn, snd pn).

Section Numbered.
Context {A B : Type} (f : nat -> A -> list B).

(** Concatenation of [f i x] over a list whose first element has
    index [i]. *)
Fixpoint flat_mapi (i : nat) (l : list A) : list B :=
  match l with
  | [] => []
  | x :: l' => f i x ++ flat_mapi (S i) l'
  end.
End Numbered.

(** Every node of a tree with its path, in document order (a node before
    its descendants, siblings left to right). *)
Fixpoint document (n : Node) : list (Path * Node) :=
  ([], n) ::
  match n with
  | Text _ => []
  | Element _ _ kids =>
      flat_mapi (fun i c => map (under i) (document c)) 0 kids
  end.

Definition nodes (n : Node) : list Node := map snd (document n).

(** The nodes of the tree that satisfy [sel], in document order. *)
Definition select (sel : Node -> bool) (n : Node) : list (Path * Node) :=
  filter (fun pn => sel (snd pn)) (document n).

(** *** Enclosing elements *)

(** The proper ancestors of the node at path [p], outermost first, each
    with its own path. *)
Fixpoint ancestors (p : Path) (n : Node) : list (Path * Node) :=
  match p with
  | [] => []
  | i :: p' =>
      match nth_error (children n) i with
      | Some c => ([], n) :: map (under i) (ancestors p' c)
      | None => []
      end
  end.

(** The paths of the enclosing elements selected by [sel], outermost
    first. *)
Definition scopes (sel : Node -> bool) (p : Path) (n : Node) : list Path :=
  map fst (filter (fun qa => sel (snd qa)) (ancestors p n)).

(** The innermost enclosing element. *)
Definition parent (p : Path) (n : Node) : option Node :=
  match rev (ancestors p n) with
  | qa :: _ => Some (snd qa)
  | [] => None
  end.

(** [q] is a proper prefix of [p]: the node at [q] encloses the node at
    [p]. *)
Definition strictly_above (q p : Path) : Prop :=
  exists rest, rest <> [] /\ p = q ++ rest.

(** *** Order of appearance *)

(** In the listing [l], every item selected by [first] comes strictly
    before every item selected by [second]. *)
Definition precedes {A : Type} (first second : A -> bool) (l : list A) : Prop :=
  forall i j a b,
    nth_error l i = Some a -> first a = true ->
    nth_error l j = Some b -> second b = true ->
    i < j.

(** The same, decided by one pass: from an item selected by [second] on,
    nothing is selected by [first]. *)
Fixpoint precedesb {A : Type} (first second : A -> bool) (l : list A) : bool :=
  match l with
  | [] => true
  | x :: l' =>
      (if second x then forallb (fun y => negb (first y)) l else true)
      && precedesb first second l'
  end.

End Jsx.

(** ** Function components *)

Module Render.
Import Jsx.

(** What the body of a function component can reach besides its
    argument: the state cells of its hooks and the effects it queues
    for after the commit. *)
Record Fiber : Type := mkFiber {
  cells : list JsValue;
  effects : list string
}.

(** A render pass reads and may update the fiber. *)
Definition Render (A : Type) : Type := Fiber -> A * Fiber.

Definition ret {A : Type} (a : A) : Render A := fun fb => (a, fb).

Definition bind {A B : Type} (m : Render A) (k : A -> Render B) : Render B :=
  fun fb => let (a, fb') := m fb in k a fb'.

(** The host calls a function component with its props object. *)
Definition FC (P : Type) : Type := P -> Render Node.

Definition output {P : Type} (c : FC P) (props : P) (fb : Fiber) : Node :=
  fst (c props fb).

Definition fiber_after {P : Type} (c : FC P) (props : P) (fb : Fiber) : Fiber :=
  snd (c props fb).

End Render.

Import Jsx Render.

(** ** frontend/lib/components/NavBar/components/Logo.tsx *)

(** [import Image from "next/image"; import Link from "next/link";] *)
Definition Image : ElementType := Comp "Image".
Definition Link : ElementType := Comp "Link".

(** [<Logo />] is rendered without attributes. *)
Definition NoProps : Type := unit.

(** [export const Logo = (): JSX.Element => { return ( ... ); };]
    The parameter list is empty: the props object the host passes is
    dropped, and the body is a single [return] of a JSX expression. *)
Definition Logo : FC NoProps :=
  fun _ =>
    ret
      (jsx Link [("href", VStr "/"); ("className", VStr "flex items-center gap-4")]
         [ jsx Image
             [ ("className", VStr "rounded-full");
               ("src", VStr "/logo.png");
               ("alt", VStr "Max Smart");
               ("width", VNum 48);
               ("height", VNum 48) ]
             [];
           jsx (Host "h1") [("className", VStr "font-bold")] [Text "Max Smart"] ]).

(** ** frontend/app/chat/[chatId]/page.tsx *)

(** [import PageHeading from "@/lib/components/ui/PageHeading";]
    [import { ChatProvider } from "@/lib/context/ChatProvider";]
    [import { ChatInput, ChatMessages } from "./components";] *)
Definition PageHeading : ElementType := Comp "PageHeading".
Definition ChatProvider : ElementType := Comp "ChatProvider".
Definition ChatInput : ElementType := Comp "ChatInput".
Definition ChatMessages : ElementType := Comp "ChatMessages".

(** The props of a page under [app/chat/[chatId]]: the dynamic segment of
    the route and the query string. *)
Record RouteParams : Type := mkRouteParams {
  chatId : string
}.

Record PageProps : Type := mkPageProps {
  params : RouteParams;
  searchParams : list (string * string)
}.

(** [const SelectedChatPage = (): JSX.Element => { return ( ... ); };]
    Again the parameter list is empty and the body is a single [return]. *)
Definition SelectedChatPage : FC PageProps :=
  fun _ =>
    ret
      (jsx (Host "main")
         [ ("className", VStr "flex flex-col w-full pt-10");
           ("data-testid", VStr "chat-page") ]
         [ jsx (Host "section")
             [ ("className",
                VStr "flex flex-col flex-1 items-center w-full h-full min-h-[70vh]") ]
             [ jsx PageHeading
                 [ ("title", VStr "Chat with Max Smart");
                   ("subtitle", VStr "Talk to your AI about your data") ]
                 [];
               jsx ChatProvider []
                 [ jsx (Host "div")
                     [ ("className",
                        VStr "relative w-full flex flex-col flex-1 items-center") ]
                     [ jsx (Host "div")
                         [ ("className",
                            VStr "flex-1 w-full flex flex-col items-center") ]
                         [ jsx ChatMessages [] [] ];
                       jsx ChatInput [] [] ] ] ] ]).

(** ** Vocabulary of the contract *)

(** A link: the router's [Link] component or a plain anchor. *)
Definition is_link (n : Node) : bool :=
  has_type Link n || has_type (Host "a") n.

(** An image: the framework's [Image] component or a plain [img]. *)
Definition is_image (n : Node) : bool :=
  has_type Image n || has_type (Host "img") n.

Definition is_heading (n : Node) : bool := has_type PageHeading n.
Definition is_provider (n : Node) : bool := has_type ChatProvider n.
Definition is_messages (n : Node) : bool := has_type ChatMessages n.
Definition is_input (n : Node) : bool := has_type ChatInput n.

(** Bold display is requested with the utility class [font-bold]. *)
Definition is_bold (n : Node) : bool := has_class "font-bold" n.

(** ** Vocabulary of the markup *)

Definition is_component (n : Node) : bool :=
  match type_of n with
  | Some (Comp _) => true
  | _ => false
  end.

Definition is_host (n : Node) : bool :=
  match type_of n with
  | Some (Host _) => true
  | _ => false
  end.

(** The types of the component elements of a tree, in document order. *)
Definition component_types (n : Node) : list ElementType :=
  flat_map
    (fun m =>
       match type_of m with
       | Some (Comp c) => [Comp c]
       | _ => []
       end)
    (nodes n).

(** The components each file imports, in the order of its import lines. *)
Definition Logo_imports : list ElementType := [Image; Link].

Definition page_imports : list ElementType :=
  [PageHeading; ChatProvider; ChatInput; ChatMessages].

(** No name occurs twice. *)
Fixpoint distinctb (l : list string) : bool :=
  match l with
  | [] => true
  | x :: l' => negb (existsb (String.eqb x) l') && distinctb l'
  end.

Definition attr_names (n : Node) : list string := map fst (attributes n).

(** The utility classes of a full-width flex column. *)
Definition is_flex_column (n : Node) : bool :=
  has_class "flex" n && has_class "flex-col" n && has_class "w-full" n.

(** Round display is requested with the utility class [rounded-full]. *)
Definition is_rounded (n : Node) : bool := has_class "rounded-full" n.

(** The element takes the free space of its flex parent. *)
Definition is_growing (n : Node) : bool := has_class "flex-1" n.

(** ** Facts about element trees *)

Module JsxFacts.

Lemma in_flat_mapi {A B : Type} (f : nat -> A -> list B) (y : B) (l : list A) :
  forall i,
    In y (flat_mapi f i l) <->
    exists k x, nth_error l k = Some x /\ In y (f (i + k) x).
Proof.
  induction l as [|x l IH]; intro i; simpl.
  - split; [tauto|]. intros (k & x & Hk & _). now destruct k.
  - rewrite in_app_iff, IH. split.
    + intros [H | (k & x' & Hk & H)].
      * exists 0, x. rewrite Nat.add_0_r. auto.
      * exists (S k), x'. rewrite Nat.add_succ_r. auto.
    + intros (k & x' & Hk & H). destruct k as [|k]; simpl in Hk.
      * injection Hk as ->. rewrite Nat.add_0_r in H. auto.
      * right. exists k, x'. rewrite Nat.add_succ_r in H. auto.
Qed.

Lemma in_map_under (i : nat) (l : list (Path * Node)) (p : Path) (m : Node) :
  In (p, m) (map (under i) l) <-> exists q, p = i :: q /\ In (q, m) l.
Proof.
  rewrite in_map_iff. unfold under. split.
  - intros ([q m'] & H & Hin). simpl in H. injection H as <- <-. eauto.
  - intros (q & -> & Hin). exists (q, m). auto.
Qed.

(** [document] lists exactly the nodes reachable by a path. *)
Lemma document_subtree_at (n : Node) :
  forall p m, In (p, m) (document n) <-> subtree_at p n = Some m.
Proof.
  induction n as [s | ty attrs kids IH] using Node_ind; intros p m.
  - simpl. split.
    + intros [H | []]. injection H as <- <-. reflexivity.
    + destruct p as [|i p]; simpl.
      * intros H. injection H as <-. now left.
      * destruct i; discriminate.
  - rewrite Forall_forall in IH.
    cbn [document In]. rewrite in_flat_mapi. split.
    + intros [H | (k & c & Hk & H)].
      * injection H as <- <-. reflexivity.
      * apply in_map_under in H. destruct H as (q & -> & H).
        simpl. rewrite Hk.
        apply (IH c); [eapply nth_error_In; eauto | exact H].
    + destruct p as [|i p]; simpl.
      * intros H. injection H as <-. now left.
      * destruct (nth_error kids i) as [c|] eqn:Hi; [|discriminate].
        intros H. right. exists i, c. split; [exact Hi|].
        apply in_map_under. exists p. split; [reflexivity|].
        apply (IH c); [eapply nth_error_In; eauto | exact H].
Qed.

Lemma select_spec (sel : Node -> bool) (n : Node) (p : Path) (m : Node) :
  In (p, m) (select sel n) <-> subtree_at p n = Some m /\ sel m = true.
Proof.
  unfold select. rewrite filter_In, document_subtree_at. reflexivity.
Qed.

(** A tree that has a single selected node: every selected node is that
    one. *)
Lemma select_single (sel : Node -> bool) (n : Node) (p0 : Path) (m0 : Node) :
  select sel n = [(p0, m0)] ->
  forall p m, subtree_at p n = Some m -> sel m = true -> p = p0 /\ m = m0.
Proof.
  intros Hsel p m Hp Hm.
  assert (Hin : In (p, m) (select sel n)) by (apply select_spec; auto).
  rewrite Hsel in Hin. destruct Hin as [H | []].
  injection H as <- <-. auto.
Qed.

Lemma strictly_above_cons (i : nat) (q p : Path) :
  strictly_above (i :: q) (i :: p) <-> strictly_above q p.
Proof.
  unfold strictly_above. split; intros (rest & Hne & H); exists rest.
  - simpl in H. injection H as ->. auto.
  - simpl. subst p. auto.
Qed.

(** For an existing node, [ancestors] lists exactly the nodes that lie
    strictly above it. *)
Lemma ancestors_spec (p : Path) :
  forall n m q a,
    subtree_at p n = Some m ->
    In (q, a) (ancestors p n) <->
    strictly_above q p /\ subtree_at q n = Some a.
Proof.
  induction p as [|i p IH]; intros n m q a Hm; simpl in *.
  - split; [tauto|]. intros ((rest & Hne & Hp) & _).
    symmetry in Hp. apply app_eq_nil in Hp. tauto.
  - destruct (nth_error (children n) i) as [c|] eqn:Hi; [|discriminate].
    cbn [In]. rewrite in_map_under. split.
    + intros [H | (q' & -> & H)].
      * injection H as <- <-. split; [|reflexivity].
        exists (i :: p). split; [discriminate | reflexivity].
      * apply (IH c m) in H; [|exact Hm]. destruct H as (Ha & Hq).
        rewrite strictly_above_cons. simpl. rewrite Hi. auto.
    + intros (Ha & Hq). destruct q as [|j q].
      * left. simpl in Hq. injection Hq as ->. reflexivity.
      * right. destruct Ha as (rest & Hne & Hrest).
        simpl in Hrest. injection Hrest as <- ->.
        exists q. split; [reflexivity|]. apply (IH c m); [exact Hm|].
        simpl in Hq. rewrite Hi in Hq.
        split; auto. exists rest. auto.
Qed.

(** The enclosing scopes of an existing node are the selected nodes
    strictly above it. *)
Lemma scopes_spec (sel : Node -> bool) (p q : Path) (n m : Node) :
  subtree_at p n = Some m ->
  In q (scopes sel p n) <->
  strictly_above q p /\ exists a, subtree_at q n = Some a /\ sel a = true.
Proof.
  intros Hm. unfold scopes. rewrite in_map_iff. split.
  - intros ([q' a] & Hq & Hin). simpl in Hq. subst q'.
    apply filter_In in Hin. destruct Hin as (Hin & Hsel).
    apply (ancestors_spec p n m) in Hin; [|exact Hm].
    destruct Hin as (Ha & Hq). eauto.
  - intros (Ha & a & Hq & Hsel). exists (q, a). split; [reflexivity|].
    apply filter_In. split; [|exact Hsel].
    apply (ancestors_spec p n m); auto.
Qed.

(** *** Order of appearance *)

Lemma forallb_nth_error {A : Type} (f : A -> bool) (l : list A) (i : nat) (a : A) :
  forallb f l = true -> nth_error l i = Some a -> f a = true.
Proof.
  intros Hall Hi. rewrite forallb_forall in Hall.
  apply Hall. eapply nth_error_In; eauto.
Qed.

(** The one-pass check decides [precedes]. *)
Lemma precedesb_sound {A : Type} (first second : A -> bool) (l : list A) :
  precedesb first second l = true -> precedes first second l.
Proof.
  unfold precedes. induction l as [|x l IH]; intros Hb i j a b Hi Ha Hj Hb'.
  - destruct i; discriminate.
  - cbn [precedesb] in Hb. apply andb_true_iff in Hb. destruct Hb as (Hx & Hl).
    destruct j as [|j].
    + simpl in Hj. injection Hj as ->. rewrite Hb' in Hx.
      apply (forallb_nth_error _ _ i a) in Hx; [|exact Hi].
      cbv beta in Hx. rewrite Ha in Hx. discriminate.
    + destruct i as [|i]; [lia|].
      simpl in Hi, Hj. specialize (IH Hl i j a b Hi Ha Hj Hb'). lia.
Qed.

Lemma precedesb_complete {A : Type} (first second : A -> bool) (l : list A) :
  precedes first second l -> precedesb first second l = true.
Proof.
  unfold precedes. induction l as [|x l IH]; intros H; [reflexivity|].
  cbn [precedesb]. apply andb_true_iff. split.
  - destruct (second x) eqn:Hx; [|reflexivity].
    apply forallb_forall. intros y Hy.
    destruct (first y) eqn:Hfy; [|reflexivity].
    apply In_nth_error in Hy. destruct Hy as (i & Hi).
    specialize (H i 0 y x Hi Hfy eq_refl Hx). lia.
  - apply IH. intros i j a b Hi Ha Hj Hb.
    specialize (H (S i) (S j) a b Hi Ha Hj Hb). lia.
Qed.

End JsxFacts.

(** ** The composition contract *)

Import JsxFacts.

(** The trees do not depend on the arguments of the render pass, so the
    selections below are computed once and shared by the proofs. *)

Lemma Logo_images (props : NoProps) (fb : Fiber) :
  exists img,
    select is_image (output Logo props fb) = [([0], img)] /\
    attr "width" img = Some (VNum 48) /\
    attr "height" img = Some (VNum 48) /\
    attr "alt" img = Some (VStr "Max Smart").
Proof. eexists. repeat split; reflexivity. Qed.

Lemma Logo_texts (props : NoProps) (fb : Fiber) :
  select is_text (output Logo props fb) = [([1; 0], Text "Max Smart")].
Proof. reflexivity. Qed.

Lemma page_headings (props : PageProps) (fb : Fiber) :
  exists h,
    select is_heading (output SelectedChatPage props fb) = [([0; 0], h)].
Proof. eexists. reflexivity. Qed.

Lemma page_providers (props : PageProps) (fb : Fiber) :
  exists pr,
    select is_provider (output SelectedChatPage props fb) = [([0; 1], pr)].
Proof. eexists. reflexivity. Qed.

Lemma nth_error_document (n : Node) (i : nat) (pn : Path * Node) :
  nth_error (document n) i = Some pn -> subtree_at (fst pn) n = Some (snd pn).
Proof.
  intros H. apply nth_error_In in H. destruct pn as [p m].
  apply document_subtree_at. exact H.
Qed.

(** C1.  Whatever the arguments of the render pass, the tree returned by
    [Logo] holds exactly one link, and the [href] of that link is the
    root path ["/"]. *)
Theorem Logo_one_link_to_root (props : NoProps) (fb : Fiber) :
  exists p l,
    select is_link (output Logo props fb) = [(p, l)] /\
    attr "href" l = Some (VStr "/").
Proof. eexists _, _. split; reflexivity. Qed.

(** C2.  Whatever the arguments of the render pass, the tree returned by
    [SelectedChatPage] holds exactly one [PageHeading]; its title is
    "Chat with Max Smart" and its subtitle is "Talk to your AI about your
    data". *)
Theorem SelectedChatPage_one_heading (props : PageProps) (fb : Fiber) :
  exists p h,
    select is_heading (output SelectedChatPage props fb) = [(p, h)] /\
    attr "title" h = Some (VStr "Chat with Max Smart") /\
    attr "subtitle" h = Some (VStr "Talk to your AI about your data").
Proof. eexists _, _. repeat split; reflexivity. Qed.

(** C3.  In the tree returned by [SelectedChatPage], [ChatMessages] comes
    before [ChatInput] in document order; there is one [ChatProvider], one
    [ChatMessages] and one [ChatInput]; the provider lies strictly above
    both, and it is the only provider scope enclosing either. *)
Theorem SelectedChatPage_messages_before_input_in_provider
    (props : PageProps) (fb : Fiber) :
  let out := output SelectedChatPage props fb in
  precedes is_messages is_input (nodes out) /\
  exists scope pm pi,
    map fst (select is_provider out) = [scope] /\
    map fst (select is_messages out) = [pm] /\
    map fst (select is_input out) = [pi] /\
    strictly_above scope pm /\
    strictly_above scope pi /\
    scopes is_provider pm out = [scope] /\
    scopes is_provider pi out = [scope].
Proof.
  intros out. split.
  - apply precedesb_sound. reflexivity.
  - exists [0; 1], [0; 1; 0; 0; 0], [0; 1; 0; 1].
    repeat split; try reflexivity.
    + exists [0; 0; 0]. split; [discriminate | reflexivity].
    + exists [0; 1]. split; [discriminate | reflexivity].
Qed.

(** C4.  Every image in the tree returned by [Logo] has width 48 and
    height 48, and it is the only image of that tree. *)
Theorem Logo_image_48_square
    (props : NoProps) (fb : Fiber) (p : Path) (img : Node) :
  subtree_at p (output Logo props fb) = Some img ->
  is_image img = true ->
  attr "width" img = Some (VNum 48) /\
  attr "height" img = Some (VNum 48) /\
  select is_image (output Logo props fb) = [(p, img)].
Proof.
  intros Hp Himg.
  destruct (Logo_images props fb) as (img0 & Hsel & Hw & Hh & _).
  destruct (select_single _ _ _ _ Hsel p img Hp Himg) as (-> & ->).
  auto.
Qed.

Lemma Logo_image_48_square_witness :
  exists img,
    subtree_at [0] (output Logo tt (mkFiber [] [])) = Some img /\
    is_image img = true /\
    attr "width" img = Some (VNum 48) /\
    attr "height" img = Some (VNum 48) /\
    select is_image (output Logo tt (mkFiber [] [])) = [([0], img)].
Proof.
  eexists. split; [reflexivity|]. split; [reflexivity|].
  apply (Logo_image_48_square tt (mkFiber [] []) [0]); reflexivity.
Defined.

(** C5.  Every text node in the tree returned by [Logo] reads
    "Max Smart", is the only text node of that tree, and its parent
    element carries the class [font-bold]. *)
Theorem Logo_label_Max_Smart_bold
    (props : NoProps) (fb : Fiber) (p : Path) (t : string) :
  subtree_at p (output Logo props fb) = Some (Text t) ->
  t = "Max Smart" /\
  select is_text (output Logo props fb) = [(p, Text t)] /\
  exists h,
    parent p (output Logo props fb) = Some h /\
    is_bold h = true.
Proof.
  intros Hp.
  destruct (select_single _ _ _ _ (Logo_texts props fb) p (Text t) Hp eq_refl)
    as (-> & Ht).
  injection Ht as ->.
  split; [reflexivity|]. split; [reflexivity|].
  eexists. split; reflexivity.
Qed.

Lemma Logo_label_Max_Smart_bold_witness :
  subtree_at [1; 0] (output Logo tt (mkFiber [] [])) = Some (Text "Max Smart") /\
  "Max Smart" = "Max Smart" /\
  select is_text (output Logo tt (mkFiber [] [])) = [([1; 0], Text "Max Smart")] /\
  exists h,
    parent [1; 0] (output Logo tt (mkFiber [] [])) = Some h /\
    is_bold h = true.
Proof.
  split; [reflexivity|].
  apply (Logo_label_Max_Smart_bold tt (mkFiber [] []) [1; 0] "Max Smart").
  reflexivity.
Defined.

(** C6.  Two render passes of [Logo], and two render passes of
    [SelectedChatPage], return the same tree whatever props and fiber
    each pass is given, and a pass leaves the fiber as it found it: no
    hook cell is read or written and no effect is queued. *)
Theorem components_deterministic_and_pure
    (u1 u2 : NoProps) (q1 q2 : PageProps) (fb1 fb2 : Fiber) :
  output Logo u1 fb1 = output Logo u2 fb2 /\
  output SelectedChatPage q1 fb1 = output SelectedChatPage q2 fb2 /\
  fiber_after Logo u1 fb1 = fb1 /\
  fiber_after SelectedChatPage q1 fb1 = fb1.
Proof. repeat split. Qed.

(** C7.  The result of a render pass of [SelectedChatPage], tree and
    fiber, is the same for any two values of the route parameter
    [chatId]. *)
Theorem SelectedChatPage_ignores_chatId
    (id1 id2 : string) (query : list (string * string)) (fb : Fiber) :
  SelectedChatPage (mkPageProps (mkRouteParams id1) query) fb =
  SelectedChatPage (mkPageProps (mkRouteParams id2) query) fb.
Proof. reflexivity. Qed.

(** C8.  In the tree returned by [SelectedChatPage], a [PageHeading]
    listed at position [i] of the document and a [ChatProvider] listed at
    position [j] satisfy [i < j]; the provider does not lie above the
    heading, and no provider scope encloses the heading. *)
Theorem SelectedChatPage_heading_before_and_outside_provider
    (props : PageProps) (fb : Fiber) (i j : nat) (h pr : Path * Node) :
  nth_error (document (output SelectedChatPage props fb)) i = Some h ->
  is_heading (snd h) = true ->
  nth_error (document (output SelectedChatPage props fb)) j = Some pr ->
  is_provider (snd pr) = true ->
  i < j /\
  ~ strictly_above (fst pr) (fst h) /\
  scopes is_provider (fst h) (output SelectedChatPage props fb) = [].
Proof.
  intros Hi Hh Hj Hpr.
  assert (Hord : precedes (fun pn => is_heading (snd pn))
                          (fun pn => is_provider (snd pn))
                          (document (output SelectedChatPage props fb)))
    by (apply precedesb_sound; reflexivity).
  split; [exact (Hord i j h pr Hi Hh Hj Hpr)|].
  destruct (page_headings props fb) as (h0 & Hsel).
  destruct (page_providers props fb) as (pr0 & Hsel').
  apply nth_error_document in Hi, Hj.
  destruct (select_single _ _ _ _ Hsel _ _ Hi Hh) as (Hph & _).
  destruct (select_single _ _ _ _ Hsel' _ _ Hj Hpr) as (Hpp & _).
  rewrite Hph, Hpp. split; [|reflexivity].
  intros (rest & _ & Hrest). discriminate Hrest.
Qed.

Lemma SelectedChatPage_heading_before_and_outside_provider_witness :
  let out := output SelectedChatPage (mkPageProps (mkRouteParams "42") []) (mkFiber [] []) in
  exists h pr,
    nth_error (document out) 2 = Some h /\
    is_heading (snd h) = true /\
    nth_error (document out) 3 = Some pr /\
    is_provider (snd pr) = true /\
    2 < 3 /\
    ~ strictly_above (fst pr) (fst h) /\
    scopes is_provider (fst h) out = [].
Proof.
  intros out. eexists _, _.
  split; [reflexivity|]. split; [reflexivity|].
  split; [reflexivity|]. split; [reflexivity|].
  apply (SelectedChatPage_heading_before_and_outside_provider
           (mkPageProps (mkRouteParams "42") []) (mkFiber [] []) 2 3);
    reflexivity.
Defined.

(** C9.  In the tree returned by [Logo], the [alt] text of an image is
    "Max Smart", and it is the string of any text node of the tree. *)
Theorem Logo_image_alt_is_label
    (props : NoProps) (fb : Fiber) (p q : Path) (img : Node) (t : string) :
  subtree_at p (output Logo props fb) = Some img ->
  is_image img = true ->
  subtree_at q (output Logo props fb) = Some (Text t) ->
  attr "alt" img = Some (VStr "Max Smart") /\
  attr "alt" img = Some (VStr t).
Proof.
  intros Hp Himg Hq.
  destruct (Logo_images props fb) as (img0 & Hsel & _ & _ & Halt).
  destruct (select_single _ _ _ _ Hsel p img Hp Himg) as (_ & ->).
  destruct (select_single _ _ _ _ (Logo_texts props fb) q (Text t) Hq eq_refl)
    as (_ & Ht).
  injection Ht as ->. auto.
Qed.

Lemma Logo_image_alt_is_label_witness :
  let out := output Logo tt (mkFiber [] []) in
  exists img,
    subtree_at [0] out = Some img /\
    is_image img = true /\
    subtree_at [1; 0] out = Some (Text "Max Smart") /\
    attr "alt" img = Some (VStr "Max Smart") /\
    attr "alt" img = Some (VStr "Max Smart").
Proof.
  intros out. eexists.
  split; [reflexivity|]. split; [reflexivity|]. split; [reflexivity|].
  apply (Logo_image_alt_is_label tt (mkFiber [] []) [0] [1; 0]); reflexivity.
Defined.

(** C10.  The link returned by [Logo] holds one image and one text label,
    and within the link the image comes before the label (the [h1]
    element and its text) in document order; the root of the tree returned
    by [SelectedChatPage] is the [main] element and has the attribute
    [data-testid] set to "chat-page". *)
Theorem Logo_image_before_label_and_page_testid
    (u : NoProps) (props : PageProps) (fb : Fiber) :
  (exists pl link pi img pt,
     select is_link (output Logo u fb) = [(pl, link)] /\
     select is_image link = [(pi, img)] /\
     select is_text link = [(pt, Text "Max Smart")] /\
     precedes is_image (fun n => is_text n || has_type (Host "h1") n)
       (nodes link)) /\
  type_of (output SelectedChatPage props fb) = Some (Host "main") /\
  attr "data-testid" (output SelectedChatPage props fb)
    = Some (VStr "chat-page").
Proof.
  split; [|split; reflexivity].
  eexists _, _, _, _, _.
  split; [reflexivity|]. split; [reflexivity|]. split; [reflexivity|].
  apply precedesb_sound. reflexivity.
Qed.

(** ** The rest of the markup *)

(** A check that holds of every listed node holds of every node a path
    reaches. *)
Lemma every_node (chk : Node -> bool) (n : Node) :
  forallb chk (nodes n) = true ->
  forall p m, subtree_at p n = Some m -> chk m = true.
Proof.
  intros Hall p m Hp. rewrite forallb_forall in Hall. apply Hall.
  unfold nodes. apply in_map_iff. exists (p, m). split; [reflexivity|].
  apply document_subtree_at. exact Hp.
Qed.

Lemma existsb_eqb_In (x : string) (l : list string) :
  existsb (String.eqb x) l = true <-> In x l.
Proof.
  rewrite existsb_exists. split.
  - intros (y & Hy & Heq). apply String.eqb_eq in Heq. now subst.
  - intros H. exists x. split; [exact H | apply String.eqb_refl].
Qed.

Lemma distinctb_NoDup (l : list string) :
  distinctb l = true -> NoDup l.
Proof.
  induction l as [|x l IH]; simpl; intros H; constructor.
  - apply andb_true_iff in H. destruct H as (H & _).
    intros Hin. apply existsb_eqb_In in Hin. rewrite Hin in H. discriminate.
  - apply andb_true_iff in H. apply IH. tauto.
Qed.

Lemma lookup_attr_not_in (k : string) (attrs : Attrs) :
  ~ In k (map fst attrs) -> lookup_attr k attrs = None.
Proof.
  induction attrs as [|[k' v'] attrs IH]; simpl; intros H; [reflexivity|].
  rewrite IH by tauto.
  destruct (String.eqb k k') eqn:Heq; [|reflexivity].
  apply String.eqb_eq in Heq. subst. tauto.
Qed.

(** Where no name is written twice, lookup returns what is written. *)
Lemma lookup_attr_written (k : string) (v : JsValue) (attrs : Attrs) :
  NoDup (map fst attrs) -> In (k, v) attrs -> lookup_attr k attrs = Some v.
Proof.
  induction attrs as [|[k' v'] attrs IH]; simpl; intros Hnd Hin; [tauto|].
  apply NoDup_cons_iff in Hnd. destruct Hnd as (Hk' & Hnd).
  destruct Hin as [Heq | Hin].
  - injection Heq as -> ->.
    rewrite lookup_attr_not_in by exact Hk'.
    now rewrite String.eqb_refl.
  - rewrite (IH Hnd Hin). reflexivity.
Qed.

Lemma page_messages (props : PageProps) (fb : Fiber) :
  select is_messages (output SelectedChatPage props fb)
  = [([0; 1; 0; 0; 0], jsx ChatMessages [] [])].
Proof. reflexivity. Qed.

Lemma page_inputs (props : PageProps) (fb : Fiber) :
  select is_input (output SelectedChatPage props fb)
  = [([0; 1; 0; 1], jsx ChatInput [] [])].
Proof. reflexivity. Qed.



(** X2.  An image in the tree returned by [Logo] is loaded from the
    static path "/logo.png", is displayed round (class [rounded-full]) and
    has no children. *)
Theorem Logo_image_source_and_shape
    (props : NoProps) (fb : Fiber) (p : Path) (img : Node) :
  subtree_at p (output Logo props fb) = Some img ->
  is_image img = true ->
  attr "src" img = Some (VStr "/logo.png") /\
  is_rounded img = true /\
  children img = [].
Proof.
  intros Hp Himg.
  assert (Hsel : select is_image (output Logo props fb)
                 = [([0],
                     jsx Image
                       [ ("className", VStr "rounded-full");
                         ("src", VStr "/logo.png");
                         ("alt", VStr "Max Smart");
                         ("width", VNum 48);
                         ("height", VNum 48) ]
                       [])])
    by reflexivity.
  destruct (select_single _ _ _ _ Hsel p img Hp Himg) as (_ & ->).
  repeat split.
Qed.

Lemma Logo_image_source_and_shape_witness :
  let out := output Logo tt (mkFiber [] []) in
  exists img,
    subtree_at [0] out = Some img /\
    is_image img = true /\
    attr "src" img = Some (VStr "/logo.png") /\
    is_rounded img = true /\
    children img = [].
Proof.
  intros out. eexists.
  split; [reflexivity|]. split; [reflexivity|].
  apply (Logo_image_source_and_shape tt (mkFiber [] []) [0]); reflexivity.
Defined.

(** X3.  Every host element in the tree returned by [SelectedChatPage]
    ([main], [section] and the two [div]s) is laid out as a full-width
    flex column: its class list holds [flex], [flex-col] and [w-full]. *)
Theorem SelectedChatPage_hosts_are_flex_columns
    (props : PageProps) (fb : Fiber) (p : Path) (n : Node) :
  subtree_at p (output SelectedChatPage props fb) = Some n ->
  is_host n = true ->
  has_class "flex" n = true /\
  has_class "flex-col" n = true /\
  has_class "w-full" n = true.
Proof.
  intros Hp Hn.
  assert (H : forallb (fun m => negb (is_host m) || is_flex_column m)
                (nodes (output SelectedChatPage props fb)) = true)
    by reflexivity.
  apply (every_node _ _ H) in Hp. cbv beta in Hp.
  rewrite Hn in Hp. simpl in Hp. unfold is_flex_column in Hp.
  apply andb_true_iff in Hp. destruct Hp as (Hp & Hw).
  apply andb_true_iff in Hp. tauto.
Qed.

Lemma SelectedChatPage_hosts_are_flex_columns_witness :
  let out := output SelectedChatPage (mkPageProps (mkRouteParams "42") []) (mkFiber [] []) in
  exists n,
    subtree_at [0; 1; 0; 0] out = Some n /\
    is_host n = true /\
    has_class "flex" n = true /\
    has_class "flex-col" n = true /\
    has_class "w-full" n = true.
Proof.
  intros out. eexists.
  split; [reflexivity|]. split; [reflexivity|].
  apply (SelectedChatPage_hosts_are_flex_columns
           (mkPageProps (mkRouteParams "42") []) (mkFiber [] []) [0; 1; 0; 0]);
    reflexivity.
Defined.

(** X4.  In the tree returned by [SelectedChatPage], [ChatMessages] is the
    only child of a [div] that takes the free space (class [flex-1]), and
    that [div] and [ChatInput] are, in this order, the two children of one
    enclosing [div]: the input is a sibling of the message area, not part
    of it. *)
Theorem SelectedChatPage_message_area_beside_input
    (props : PageProps) (fb : Fiber) (pm pi : Path) (msgs input : Node) :
  subtree_at pm (output SelectedChatPage props fb) = Some msgs ->
  is_messages msgs = true ->
  subtree_at pi (output SelectedChatPage props fb) = Some input ->
  is_input input = true ->
  exists q outer area,
    pm = q ++ [0; 0] /\
    pi = q ++ [1] /\
    subtree_at q (output SelectedChatPage props fb) = Some outer /\
    has_type (Host "div") outer = true /\
    children outer = [area; input] /\
    has_type (Host "div") area = true /\
    is_growing area = true /\
    children area = [msgs].
Proof.
  intros Hpm Hm Hpi Hi.
  destruct (select_single _ _ _ _ (page_messages props fb) pm msgs Hpm Hm)
    as (-> & ->).
  destruct (select_single _ _ _ _ (page_inputs props fb) pi input Hpi Hi)
    as (-> & ->).
  exists [0; 1; 0]. eexists _, _.
  split; [reflexivity|]. split; [reflexivity|]. split; [reflexivity|].
  repeat split.
Qed.

Lemma SelectedChatPage_message_area_beside_input_witness :
  let out := output SelectedChatPage (mkPageProps (mkRouteParams "42") []) (mkFiber [] []) in
  exists msgs input,
    subtree_at [0; 1; 0; 0; 0] out = Some msgs /\
    is_messages msgs = true /\
    subtree_at [0; 1; 0; 1] out = Some input /\
    is_input input = true /\
    exists q outer area,
      [0; 1; 0; 0; 0] = q ++ [0; 0] /\
      [0; 1; 0; 1] = q ++ [1] /\
      subtree_at q out = Some outer /\
      has_type (Host "div") outer = true /\
      children outer = [area; input] /\
      has_type (Host "div") area = true /\
      is_growing area = true /\
      children area = [msgs].
Proof.
  intros out. eexists _, _.
  split; [reflexivity|]. split; [reflexivity|].
  split; [reflexivity|]. split; [reflexivity|].
  apply (SelectedChatPage_message_area_beside_input
           (mkPageProps (mkRouteParams "42") []) (mkFiber [] []));
    reflexivity.
Defined.

(** X5.  In the trees returned by [Logo] and by [SelectedChatPage], no tag
    writes an attribute name twice, so every attribute written in a tag is
    the value a lookup of its name returns: nothing is shadowed. *)
Theorem components_attributes_not_shadowed
    (u : NoProps) (props : PageProps) (fb : Fiber)
    (t : Node) (p : Path) (n : Node) (k : string) (v : JsValue) :
  In t [output Logo u fb; output SelectedChatPage props fb] ->
  subtree_at p t = Some n ->
  In (k, v) (attributes n) ->
  NoDup (attr_names n) /\ attr k n = Some v.
Proof.
  intros Ht Hp Hkv.
  assert (Hnd : NoDup (attr_names n)).
  { apply distinctb_NoDup.
    apply (every_node (fun m => distinctb (attr_names m)) t) with (p := p);
      [|exact Hp].
    destruct Ht as [<- | [<- | []]]; reflexivity. }
  split; [exact Hnd|].
  unfold attr. apply lookup_attr_written; assumption.
Qed.

Lemma components_attributes_not_shadowed_witness :
  let out := output Logo tt (mkFiber [] []) in
  exists n,
    In out [out; output SelectedChatPage (mkPageProps (mkRouteParams "42") []) (mkFiber [] [])] /\
    subtree_at [0] out = Some n /\
    In ("src", VStr "/logo.png") (attributes n) /\
    NoDup (attr_names n) /\
    attr "src" n = Some (VStr "/logo.png").
Proof.
  intros out. eexists.
  split; [left; reflexivity|]. split; [reflexivity|].
  split; [right; left; reflexivity|].
  apply (components_attributes_not_shadowed
           tt (mkPageProps (mkRouteParams "42") []) (mkFiber [] []) out [0]).
  - left; reflexivity.
  - reflexivity.
  - right; left; reflexivity.
Defined.

(** X6.  Each file uses every component it imports exactly once and uses
    no other component: the types of the component elements of the
    returned tree are a rearrangement of the file's import list. *)
Theorem components_use_each_import_once
    (u : NoProps) (props : PageProps) (fb : Fiber) :
  Permutation (component_types (output Logo u fb)) Logo_imports /\
  Permutation (component_types (output SelectedChatPage props fb)) page_imports.
Proof.
  split.
  - change (Permutation [Link; Image] [Image; Link]). apply perm_swap.
  - change (Permutation [PageHeading; ChatProvider; ChatMessages; ChatInput]
                        [PageHeading; ChatProvider; ChatInput; ChatMessages]).
    do 2 apply perm_skip. apply perm_swap.
Qed.
